(** * wizardhat/plot/plot.py: the [Lines] live plot

    A shallow embedding of the [Lines] class of [wizardhat/plot/plot.py]:
    a forwarder thread ([_get_new_samples]) copies the most recent samples
    of a [data.Data] object into a callback for the bokeh document, and the
    server's cooperative loop runs that callback ([_update]), which streams
    the samples into the [ColumnDataSource] behind the line plots.

    The methods of [Lines] are translated statement by statement into a
    state-and-exception monad over the attributes of [self].  What the file
    imports (bokeh's [ColumnDataSource], [Server], document and palettes,
    tornado's loop, [threading.Thread], and the [data.Data] object it is
    handed) is not part of the file; each is modelled from the
    specification's collaborator contracts, and marked as such.

    Lines 75-76 of the file, which are to build the dictionary the source is
    made of, do not make a statement as they stand (the [for] clause is
    commented out), so the constructor cannot run and is not modelled.
    Every method is modelled as it is written, on an object whose
    attributes are given. *)

From Stdlib Require Import ZArith QArith Lia Ascii String.
From stdpp Require Import base option list gmap strings fin_maps.

Set Default Proof Using "Type".
Local Open Scope string_scope.
Local Open Scope list_scope.
Local Open Scope nat_scope.

(** ** Exceptions and results *)

Inductive exn : Type :=
  | AttributeError
  | KeyError
  | IndexError
  | ValueError
  | RuntimeError.

Inductive result (A : Type) : Type :=
  | Ok (a : A)
  | Raise (e : exn).
Arguments Ok {A} a.
Arguments Raise {A} e.

(** ** The column data source *)

Module ColumnDataSource.
Section Columns.
Context {V : Type}.

(** Modelled from the spec: bokeh's [ColumnDataSource] is not part of the
    file.  It is "a data source bound to visual elements" holding one
    ordered sequence per column name. *)
Definition t : Type := gmap string (list V).

(** Modelled from the spec: the eviction of bokeh's [stream], "evicts from
    the front until the window length constraint holds".  One entry is
    dropped from the front for as long as the window is longer than
    [rollover]. *)
Fixpoint evict (rollover : nat) (w : list V) : list V :=
  match w with
  | [] => []
  | _ :: w' => if decide (length w ≤ rollover) then w else evict rollover w'
  end.

(** Modelled from the spec: bokeh's [ColumnDataSource.stream(new_data,
    rollover)], the "streaming-append primitive", is not part of the file.
    It "appends the batch's values to each channel's window and evicts from
    the front until the window length constraint holds".  The spec is silent
    on a batch whose names are not exactly those of the columns; the model
    refuses it and leaves the source as it was, rather than make up a window
    or leave one without values. *)
Definition stream (new_data : gmap string (list V)) (rollover : nat)
    (src : t) : result t :=
  if decide (dom new_data = dom src)
  then Ok (map_zip_with (λ w vs, evict rollover (w ++ vs)) src new_data)
  else Raise ValueError.
End Columns.
Arguments t : clear implicits.
End ColumnDataSource.

(** ** The data object *)

Module Data.
Section Data.
Context {V : Type}.

(** Modelled from the spec: the [data.Data] object handed to [Lines] is not
    part of the file.  It must expose "a mapping-like container of named
    channel columns" ([data]), "a fixed set of channel names" ([ch_names]),
    "a most recent samples view keyed by channel name" ([last_samples]) and
    "a readiness signal with wait()/clear() semantics" ([updated]).  The
    two containers are structured arrays of one dtype: a sequence of rows,
    each row holding one value per field name of [dtype_names]. *)
Record t : Type := mk {
  dtype_names : list string;
  ch_names : list string;
  data : list (string → V);
  last_samples : list (string → V);
  updated : bool
}.

(** Modelled from the spec: [arr[name]] on a structured array, the column of
    a field of the dtype; a name that is no field is an error. *)
Definition getitem (names : list string) (arr : list (string → V))
    (name : string) : result (list V) :=
  if decide (name ∈ names) then Ok ((λ r, r name) <$> arr)
  else Raise ValueError.

(** Modelled from the spec: [updated.clear()] of the readiness signal. *)
Definition clear (d : t) : t :=
  {| dtype_names := dtype_names d; ch_names := ch_names d; data := data d;
     last_samples := last_samples d; updated := false |}.

(** Modelled from the spec: the data source stores new samples and sets
    the readiness signal. *)
Definition produce (smp : list (string → V)) (d : t) : t :=
  {| dtype_names := dtype_names d; ch_names := ch_names d; data := data d;
     last_samples := smp; updated := true |}.
End Data.
Arguments t : clear implicits.
End Data.

(** ** Figures, documents, server and thread *)

(** [p.line(x=.., y=.., alpha=.., line_width=.., color=.., source=..)]; the
    source of every line is the one [ColumnDataSource] of the object, so a
    line names its two columns only. *)
Record Line : Type := {
  line_x : string;
  line_y : string;
  line_alpha : Q;
  line_width : Z;
  line_color : string
}.

Record Figure : Type := {
  plot_height : Z;
  tools : string;
  x_axis_type : string;
  y_axis_location : string;
  y_range : Z * Z;
  x_range_follow : string;
  x_range_follow_interval : Z;
  x_range_range_padding : Z;
  yaxis_axis_label : string;
  background_fill_color : string;
  renderers : list Line
}.

(** [gridplot(children, toolbar_location=.., plot_width=..)] *)
Record Grid : Type := {
  children : list (list Figure);
  toolbar_location : string;
  grid_plot_width : Z
}.

(** Modelled from the spec: the document of one connected viewer, the
    "render context", is bokeh's.  It holds the roots added to it, a title
    and the callbacks scheduled "on the next iteration" of the loop; a
    callback [partial(self._update, data_dict)] is kept as its [data_dict]. *)
Record Document (V : Type) : Type := {
  roots : list Grid;
  title : string;
  next_tick_callbacks : list (gmap string (list V))
}.
Arguments roots {V} d.
Arguments title {V} d.
Arguments next_tick_callbacks {V} d.

(** Modelled from the spec: the document the server makes for a session,
    with bokeh's title for a new document and nothing else. *)
Definition new_document {V : Type} : Document V :=
  {| roots := []; title := "Bokeh Application"; next_tick_callbacks := [] |}.

(** Modelled from the spec: what the "layout/composition primitives" and the
    "schedule on next iteration" primitive leave in a document once bokeh
    has accepted the call.  Whether it accepts a root is the check of the
    interface [Bokeh] below. *)
Definition add_root {V : Type} (g : Grid) (d : Document V) : Document V :=
  {| roots := roots d ++ [g]; title := title d;
     next_tick_callbacks := next_tick_callbacks d |}.

Definition set_title {V : Type} (s : string) (d : Document V) : Document V :=
  {| roots := roots d; title := s;
     next_tick_callbacks := next_tick_callbacks d |}.

Definition add_next_tick_callback {V : Type} (cb : gmap string (list V))
    (d : Document V) : Document V :=
  {| roots := roots d; title := title d;
     next_tick_callbacks := next_tick_callbacks d ++ [cb] |}.

Definition clear_next_tick_callbacks {V : Type} (d : Document V) : Document V :=
  {| roots := roots d; title := title d; next_tick_callbacks := [] |}.

(** Modelled from the spec: the checks of the rendering framework.  The
    spec names no failure of the layout primitives and leaves "rendering
    framework errors" to the framework; what bokeh checks when a property
    is set, a line is added to a figure or a root to a document, and what
    it raises then, is taken as given.  [None] is a call bokeh accepts.
    - [check_background]: the value assigned to [background_fill_color];
    - [check_line]: the arguments of [p.line], against the columns of the
      source the line draws;
    - [check_root]: the grid made by [gridplot] and added with [add_root]
      to the document at the given position among the documents; with the
      exception comes whether the refused grid is left among the roots of
      the document all the same. *)
Class Bokeh (V : Type) : Type := {
  check_background : string → option exn;
  check_line : gmap string (list V) → Line → option exn;
  check_root : list (Document V) → nat → Grid → option (exn * bool)
}.

(** Callbacks handed to the loop itself with [io_loop.add_callback]. *)
Inductive loop_callback : Type :=
  | server_show (route : string).

(** Modelled from the spec: bokeh's [Server], "an addressable server
    abstraction accepting a per-connection setup callback", with its
    "cooperative loop".  [applications] lists the routes served (the one
    application of every route is [_app_manager]); [sessions] holds the
    document of every viewer that has connected, oldest first. *)
Record Server (V : Type) : Type := {
  applications : list string;
  server_started : bool;
  io_loop_callbacks : list loop_callback;
  io_loop_running : bool;
  sessions : list (Document V)
}.
Arguments applications {V} s.
Arguments server_started {V} s.
Arguments io_loop_callbacks {V} s.
Arguments io_loop_running {V} s.
Arguments sessions {V} s.

(** [threading.Thread(target=self._get_new_samples)]; a thread whose target
    raises is finished. *)
Record Thread : Type := {
  target : string;
  thread_started : bool;
  thread_finished : bool
}.

(** Calls made into the server, its loop and the thread, oldest first. *)
Inductive call : Type :=
  | call_server_start
  | call_io_loop_add_callback (cb : loop_callback)
  | call_thread_start
  | call_io_loop_start
  | call_server_show (route : string).

Global Instance exn_eq_dec : EqDecision exn.
Proof. solve_decision. Defined.
Global Instance loop_callback_eq_dec : EqDecision loop_callback.
Proof. solve_decision. Defined.
Global Instance call_eq_dec : EqDecision call.
Proof. solve_decision. Defined.

(** ** The [Lines] object *)

Module Lines.
Section Lines.
Context {V : Type} `{!Bokeh V}.

(** [from bokeh.palettes import all_palettes as palettes]: the table is
    bokeh's, a colour list per palette name and size. *)
Variable palettes : gmap string (gmap nat (list string)).

(** The attributes of [self].  [_curdoc] and [plots] are assigned by
    [_app_manager] and [_set_layout] only, and are absent before; [_curdoc]
    refers to a document of [sessions (server self)] by its position.
    [calls] records the calls made into the server, loop and thread. *)
Record t : Type := mk {
  data : Data.t V;
  _source : gmap string (list V);
  server : Server V;
  _update_thread : Thread;
  _n_samples : nat;
  _colors : list string;
  _bgcolor : string;
  _curdoc : option nat;
  plots : option (list (list Figure));
  calls : list call
}.

Definition set_data (f : Data.t V → Data.t V) (s : t) : t :=
  mk (f (data s)) (_source s) (server s) (_update_thread s) (_n_samples s)
     (_colors s) (_bgcolor s) (_curdoc s) (plots s) (calls s).
Definition set_source (src : gmap string (list V)) (s : t) : t :=
  mk (data s) src (server s) (_update_thread s) (_n_samples s)
     (_colors s) (_bgcolor s) (_curdoc s) (plots s) (calls s).
Definition set_server (f : Server V → Server V) (s : t) : t :=
  mk (data s) (_source s) (f (server s)) (_update_thread s) (_n_samples s)
     (_colors s) (_bgcolor s) (_curdoc s) (plots s) (calls s).
Definition set_update_thread (f : Thread → Thread) (s : t) : t :=
  mk (data s) (_source s) (server s) (f (_update_thread s)) (_n_samples s)
     (_colors s) (_bgcolor s) (_curdoc s) (plots s) (calls s).
Definition set_curdoc (c : option nat) (s : t) : t :=
  mk (data s) (_source s) (server s) (_update_thread s) (_n_samples s)
     (_colors s) (_bgcolor s) c (plots s) (calls s).
Definition set_plots (p : option (list (list Figure))) (s : t) : t :=
  mk (data s) (_source s) (server s) (_update_thread s) (_n_samples s)
     (_colors s) (_bgcolor s) (_curdoc s) p (calls s).
Definition log (c : call) (s : t) : t :=
  mk (data s) (_source s) (server s) (_update_thread s) (_n_samples s)
     (_colors s) (_bgcolor s) (_curdoc s) (plots s) (calls s ++ [c]).

(** *** The monad of the methods

    A method runs on the attributes of [self] and either returns or raises;
    what it assigned before raising stays assigned. *)
Definition M (A : Type) : Type := t → result A * t.

Definition ret {A : Type} (a : A) : M A := λ s, (Ok a, s).
Definition raise {A : Type} (e : exn) : M A := λ s, (Raise e, s).
Definition bind {A B : Type} (k : A → M B) (m : M A) : M B :=
  λ s, match m s with
       | (Ok a, s') => k a s'
       | (Raise e, s') => (Raise e, s')
       end.
#[global] Instance M_ret : MRet M := @ret.
#[global] Instance M_bind : MBind M := @bind.

Definition get : M t := λ s, (Ok s, s).
Definition modify (f : t → t) : M unit := λ s, (Ok tt, f s).
Definition lift {A : Type} (r : result A) : M A := λ s, (r, s).

(** [try: m except e: h] *)
Definition try_except (m : M unit) (e : exn) (h : M unit) : M unit :=
  λ s, match m s with
       | (Raise e', s') => if decide (e' = e) then h s' else (Raise e', s')
       | r => r
       end.

(** [for x in l: f(x)] *)
Fixpoint for_each {A : Type} (f : A → M unit) (l : list A) : M unit :=
  match l with
  | [] => ret tt
  | x :: l' => f x ;; for_each f l'
  end.

(** [self._curdoc] and [self.plots]: reading an attribute that was never
    assigned raises. *)
Definition get_curdoc : M nat :=
  λ s, match _curdoc s with
       | Some c => (Ok c, s)
       | None => (Raise AttributeError, s)
       end.
Definition get_plots : M (list (list Figure)) :=
  λ s, match plots s with
       | Some p => (Ok p, s)
       | None => (Raise AttributeError, s)
       end.

(** A method call on the document [curdoc] refers to. *)
Definition on_sessions (f : list (Document V) → list (Document V))
    (sv : Server V) : Server V :=
  {| applications := applications sv; server_started := server_started sv;
     io_loop_callbacks := io_loop_callbacks sv;
     io_loop_running := io_loop_running sv; sessions := f (sessions sv) |}.
Definition doc_call (f : Document V → Document V) (curdoc : nat) : M unit :=
  modify (set_server (on_sessions (alter f curdoc))).

(** A call into bokeh raises what its check finds. *)
Definition checked (c : option exn) : result unit :=
  match c with
  | None => Ok tt
  | Some e => Raise e
  end.

(** [l[i]] for [i] from [enumerate] *)
Definition getindex {A : Type} (l : list A) (i : nat) : result A :=
  match l !! i with
  | Some x => Ok x
  | None => Raise IndexError
  end.

(** [{name: f(name) for name in names}] *)
Fixpoint dict_comp (f : string → result (list V)) (names : list string)
    (acc : gmap string (list V)) : result (gmap string (list V)) :=
  match names with
  | [] => Ok acc
  | name :: names' =>
      match f name with
      | Ok v => dict_comp f names' (<[name := v]> acc)
      | Raise e => Raise e
      end
  end.

(** *** [_set_layout] (lines 99-113) *)

(** The line of channel [ch] in colour [color] (lines 111-112), and the
    figure of the channel with this one line. *)
Definition channel_line (ch color : string) : Line :=
  {| line_x := "time"; line_y := ch; line_alpha := 8 # 10;
     line_width := 2; line_color := color |}.

Definition channel_figure (bgcolor ch color : string) : Figure :=
  {| plot_height := 100;
     tools := "xpan,xwheel_zoom,xbox_zoom,reset";
     x_axis_type := "datetime";
     y_axis_location := "right";
     y_range := (-10, 10)%Z;
     x_range_follow := "end";
     x_range_follow_interval := 5;
     x_range_range_padding := 0;
     yaxis_axis_label := ch;
     background_fill_color := bgcolor;
     renderers := [channel_line ch color] |}.

(** The body of the loop, for the pair [(i, ch)] of [enumerate]: the
    background is assigned at line 109, the colour read and the line added
    at lines 111-112, the row appended at line 113. *)
Definition add_channel_plot (i : nat) (ch : string) : M unit :=
  self ← get ;
  lift (checked (check_background (_bgcolor self))) ;;
  color ← lift (getindex (_colors self) i) ;
  lift (checked (check_line (_source self) (channel_line ch color))) ;;
  plots ← get_plots ;
  modify (set_plots (Some (plots ++ [[channel_figure (_bgcolor self) ch color]]))).

Definition _set_layout : M unit :=
  modify (set_plots (Some [])) ;;
  self ← get ;
  for_each (uncurry add_channel_plot) (imap pair (Data.ch_names (data self))).

(** *** [_set_callbacks] (lines 115-118) *)

Definition _set_callbacks : M unit :=
  curdoc ← get_curdoc ;
  plots ← get_plots ;
  self ← get ;
  match check_root (sessions (server self)) curdoc
          {| children := plots; toolbar_location := "left";
             grid_plot_width := 1000 |} with
  | Some (e, left_in) =>
      (if left_in
       then doc_call (add_root {| children := plots; toolbar_location := "left";
                                  grid_plot_width := 1000 |}) curdoc
       else ret tt) ;;
      raise e
  | None =>
      doc_call (add_root {| children := plots; toolbar_location := "left";
                            grid_plot_width := 1000 |}) curdoc
  end ;;
  curdoc ← get_curdoc ;
  doc_call (set_title "Dummy EEG Stream") curdoc.

(** *** [_app_manager] (lines 94-97) *)

Definition _app_manager (curdoc : nat) : M unit :=
  modify (set_curdoc (Some curdoc)) ;;
  _set_layout ;;
  _set_callbacks.

(** *** [_update] (lines 120-122)

    [gen.coroutine] hands an exception of the body to the future the call
    returns; either way the source is as [stream] left it. *)
Definition _update (data_dict : gmap string (list V)) : M unit :=
  self ← get ;
  src ← lift (ColumnDataSource.stream data_dict (_n_samples self) (_source self)) ;
  modify (set_source src).

(** *** [_get_new_samples] (lines 124-134)

    [new_samples] is the dictionary of lines 127-128.  [_get_new_samples] is
    one turn of the [while True] loop, taken when [updated.wait()] has
    returned. *)
Definition new_samples (d : Data.t V) : result (gmap string (list V)) :=
  dict_comp (Data.getitem (Data.dtype_names d) (Data.last_samples d))
            (Data.dtype_names d) ∅.

Definition _get_new_samples : M unit :=
  self ← get ;
  data_dict ← lift (new_samples (data self)) ;
  try_except
    (curdoc ← get_curdoc ;
     doc_call (add_next_tick_callback data_dict) curdoc)
    AttributeError
    (ret tt) ;;
  modify (set_data Data.clear).

(** *** The loop

    Modelled from the spec: the server's "cooperative loop" is tornado's.
    What reaches the running loop from outside is an [input]: the data
    source stores samples and signals, a viewer connects, the forwarder
    thread gets a turn, the loop takes its next iteration, or the loop is
    stopped. *)
Inductive input : Type :=
  | Produce (smp : list (string → V))
  | Connect
  | Forward
  | Tick
  | Stop.

(** How a call that may block ends: it has returned, it has raised, or it is
    still in the loop when the inputs end. *)
Inductive outcome : Type :=
  | Returned (self : t)
  | Failed (e : exn)
  | Serving (self : t).

(** Modelled from the spec: a viewer connects; the server makes the
    session's document and calls the "per-connection setup callback",
    [_app_manager], on it.  What the callback raises goes to the server. *)
Definition connect (self : t) : t :=
  let curdoc := length (sessions (server self)) in
  (_app_manager curdoc
     (set_server (on_sessions (λ ds, ds ++ [new_document])) self)).2.

(** Modelled from the spec: a turn of the forwarder thread; nothing while
    the thread is not running or [updated.wait()] blocks. *)
Definition forward (self : t) : t :=
  if thread_started (_update_thread self)
     && negb (thread_finished (_update_thread self))
     && Data.updated (data self)
  then match _get_new_samples self with
       | (Ok _, self') => self'
       | (Raise _, self') =>
           set_update_thread (λ th, {| target := target th;
                                       thread_started := thread_started th;
                                       thread_finished := true |}) self'
       end
  else self.

(** Modelled from the spec: an iteration of the loop; the callbacks
    scheduled on the documents for the next tick are taken off and run,
    oldest first.  What a callback raises goes to the loop. *)
Definition tick (self : t) : t :=
  let cbs := concat (next_tick_callbacks <$> sessions (server self)) in
  foldl (λ s cb, (_update cb s).2)
        (set_server (on_sessions (fmap clear_next_tick_callbacks)) self) cbs.

Definition react (i : input) (self : t) : t :=
  match i with
  | Produce smp => set_data (Data.produce smp) self
  | Connect => connect self
  | Forward => forward self
  | Tick => tick self
  | Stop => self
  end.

(** Modelled from the spec: the running loop takes the inputs in turn; it
    returns when it is stopped, and is still serving when they end. *)
Definition set_running (b : bool) (sv : Server V) : Server V :=
  {| applications := applications sv; server_started := server_started sv;
     io_loop_callbacks := io_loop_callbacks sv; io_loop_running := b;
     sessions := sessions sv |}.

Fixpoint io_loop_run (ext : list input) (self : t) : outcome :=
  match ext with
  | [] => Serving self
  | Stop :: _ => Returned (set_server (set_running false) self)
  | i :: ext' => io_loop_run ext' (react i self)
  end.

(** Modelled from the spec: [self.server.start()] *)
Definition server_start : M unit :=
  modify (set_server (λ sv,
    {| applications := applications sv; server_started := true;
       io_loop_callbacks := io_loop_callbacks sv;
       io_loop_running := io_loop_running sv; sessions := sessions sv |})) ;;
  modify (log call_server_start).

(** Modelled from the spec: [self.server.io_loop.add_callback(cb)] *)
Definition io_loop_add_callback (cb : loop_callback) : M unit :=
  modify (set_server (λ sv,
    {| applications := applications sv; server_started := server_started sv;
       io_loop_callbacks := io_loop_callbacks sv ++ [cb];
       io_loop_running := io_loop_running sv; sessions := sessions sv |})) ;;
  modify (log (call_io_loop_add_callback cb)).

(** Modelled from the spec: [self._update_thread.start()] *)
Definition update_thread_start : M unit :=
  modify (set_update_thread (λ th,
    {| target := target th; thread_started := true;
       thread_finished := thread_finished th |})) ;;
  modify (log call_thread_start).

(** Modelled from the spec: [self.server.io_loop.start()]; the loop runs
    the callbacks it was handed, then serves what reaches it until it is
    stopped. *)
Definition run_loop_callback (self : t) (cb : loop_callback) : t :=
  match cb with
  | server_show route => log (call_server_show route) self
  end.

Definition io_loop_start (ext : list input) (self : t) : outcome :=
  let cbs := io_loop_callbacks (server self) in
  let self := log call_io_loop_start (set_server (set_running true) self) in
  let self := set_server (λ sv,
    {| applications := applications sv; server_started := server_started sv;
       io_loop_callbacks := []; io_loop_running := io_loop_running sv;
       sessions := sessions sv |}) self in
  io_loop_run ext (foldl run_loop_callback self cbs).

(** *** [run_server] (lines 88-92) *)

Definition run_server (ext : list input) (self : t) : outcome :=
  match (server_start ;;
         io_loop_add_callback (server_show "/") ;;
         update_thread_start) self with
  | (Ok _, self') => io_loop_start ext self'
  | (Raise e, _) => Failed e
  end.

(** *** The attributes the constructor is to assign (lines 59-86) *)

(** The keyword arguments; [None] is an argument left to its default.
    [n_samples] is a number of samples, a natural number. *)
Record kwargs : Type := {
  n_samples : option nat;
  palette : option string;
  bgcolor : option string;
  autostart : option bool
}.

(** [d[k]] on a dict *)
Definition getitem {A : Type} `{Countable K} (d : gmap K A) (k : K) : result A :=
  match d !! k with
  | Some x => Ok x
  | None => Raise KeyError
  end.

(** The right-hand side of line 82,
    [palettes[palette][len(self.data.ch_names)]]. *)
Definition palette_colors (palette : string) (data : Data.t V) :
    result (list string) :=
  match getitem palettes palette with
  | Ok sizes => getitem sizes (length (Data.ch_names data))
  | Raise e => Raise e
  end.

(** An object with the attributes that lines 72-83 name, for a dictionary
    of columns and a list of colours that are given: a server and a thread
    that have not been started, no document and no layout.  The examples
    are made with it. *)
Definition constructed (data_dict : gmap string (list V)) (data : Data.t V)
    (kw : kwargs) (colors : list string) : t :=
  {| data := data;
     _source := data_dict;
     server := {| applications := ["/"]; server_started := false;
                  io_loop_callbacks := []; io_loop_running := false;
                  sessions := [] |};
     _update_thread := {| target := "_get_new_samples";
                          thread_started := false; thread_finished := false |};
     _n_samples := default 5000 (n_samples kw);
     _colors := colors;
     _bgcolor := default "white" (bgcolor kw);
     _curdoc := None;
     plots := None;
     calls := [] |}.

(** *** What the loop of [_set_layout] comes to

    The result of the loop and the rows it leaves, for the channels [chs]
    from index [k] on and the rows [acc] appended so far. *)
Fixpoint layout_rows (bg : string) (colors : list string)
    (src : gmap string (list V)) (k : nat) (chs : list string)
    (acc : list (list Figure)) : result unit * list (list Figure) :=
  match chs with
  | [] => (Ok tt, acc)
  | ch :: chs' =>
      match check_background bg with
      | Some e => (Raise e, acc)
      | None =>
          match colors !! k with
          | None => (Raise IndexError, acc)
          | Some c =>
              match check_line src (channel_line ch c) with
              | Some e => (Raise e, acc)
              | None =>
                  layout_rows bg colors src (S k) chs'
                    (acc ++ [[channel_figure bg ch c]])
              end
          end
      end
  end.

(** *** Invariants

    [preserves P m]: the method [m] keeps [P], whether it returns or
    raises. *)
Definition preserves {A : Type} (P : t → Prop) (m : M A) : Prop :=
  ∀ self, P self → P (m self).2.

(** The server and the forwarder thread have been started, and the loop
    has run the callbacks it was handed. *)
Definition started (self : t) : Prop :=
  server_started (server self) = true
  ∧ thread_started (_update_thread self) = true
  ∧ io_loop_callbacks (server self) = [].

(** No window of the source is longer than [_n_samples]. *)
Definition bounded (self : t) : Prop :=
  ∀ (name : string) w, _source self !! name = Some w → length w ≤ _n_samples self.

(** The columns of a source, or of a batch, have one length. *)
Definition equal_length (m : gmap string (list V)) : Prop :=
  ∃ n, ∀ (name : string) w, m !! name = Some w → length w = n.

(** The windows have one length, and so have the columns of every batch
    that waits on a document for the next tick. *)
Definition windows_inv (self : t) : Prop :=
  equal_length (_source self)
  ∧ Forall (λ doc, Forall equal_length (next_tick_callbacks doc))
           (sessions (server self)).

(** The call a callback of the loop makes when it runs. *)
Definition shown (cb : loop_callback) : call :=
  match cb with
  | server_show route => call_server_show route
  end.

(** The object a call has left, when it did not raise. *)
Definition object (o : outcome) : option t :=
  match o with
  | Returned self | Serving self => Some self
  | Failed _ => None
  end.

End Lines.
End Lines.

(** ** The text of lines 75-76 *)

Module SourceText.

Definition line75 : string :=
  "        data_dict = {name: self.data.data[name][:n_samples]".
Definition line76 : string :=
  "                     #for name in self.data.dtype.names}".

(** What of a line is code: a comment runs from its [#] to the end of the
    line (neither line holds a string literal). *)
Fixpoint code (s : string) : string :=
  match s with
  | EmptyString => EmptyString
  | String c s' => if decide (c = "#"%char) then EmptyString else String c (code s')
  end.

(** The brackets still open after a text that begins with [n] open. *)
Fixpoint open_brackets (n : nat) (s : string) : nat :=
  match s with
  | EmptyString => n
  | String c s' =>
      if decide (c = "("%char ∨ c = "["%char ∨ c = "{"%char)
      then open_brackets (S n) s'
      else if decide (c = ")"%char ∨ c = "]"%char ∨ c = "}"%char)
      then open_brackets (pred n) s'
      else open_brackets n s'
  end.

Fixpoint blank (s : string) : bool :=
  match s with
  | EmptyString => true
  | String c s' => bool_decide (c = " "%char) && blank s'
  end.

End SourceText.

(** ** A palette table for the examples *)

(** Modelled from the spec: the palette table is bokeh's, "a fixed palette
    sized to channel count".  The examples use the entry of the default
    palette name, which has the sizes 3 to 10, each the first colours of the
    ten. *)
Definition Category10_10 : list string :=
  ["#1f77b4"; "#ff7f0e"; "#2ca02c"; "#d62728"; "#9467bd";
   "#8c564b"; "#e377c2"; "#7f7f7f"; "#bcbd22"; "#17becf"].

Definition example_palettes : gmap string (gmap nat (list string)) :=
  {[ "Category10" := list_to_map ((λ n, (n, take n Category10_10)) <$> seq 3 8) ]}.

(** ** An example

    A data object of three channels, its buffer holding two rows and its
    view of the last samples one; a source holding the columns of the
    buffer; a batch of one sample; and an object with these for its
    attributes and a window of two samples. *)
Definition example_row (x : Z) : string → Z :=
  λ name, (x + Z.of_nat (String.length name))%Z.

Definition example_data : Data.t Z :=
  {| Data.dtype_names := ["time"; "c1"; "ch2"; "chn3"];
     Data.ch_names := ["c1"; "ch2"; "chn3"];
     Data.data := [example_row 10; example_row 20];
     Data.last_samples := [example_row 30];
     Data.updated := true |}.

Definition example_data_dict : gmap string (list Z) :=
  list_to_map [("time", [14; 24]); ("c1", [12; 22]);
               ("ch2", [13; 23]); ("chn3", [14; 24])]%Z.

Definition example_batch : gmap string (list Z) :=
  list_to_map [("time", [34]); ("c1", [32]); ("ch2", [33]); ("chn3", [34])]%Z.

Definition example_kw (autostart : option bool) : Lines.kwargs :=
  {| Lines.n_samples := Some 2; Lines.palette := None;
     Lines.bgcolor := None; Lines.autostart := autostart |}.

Definition example_self : Lines.t :=
  Lines.constructed example_data_dict example_data (example_kw (Some false))
    (take 3 Category10_10).

(** A data object of two channels, a count the default palette has no size
    for. *)
Definition example_data_two : Data.t Z :=
  {| Data.dtype_names := ["time"; "c1"; "ch2"];
     Data.ch_names := ["c1"; "ch2"];
     Data.data := []; Data.last_samples := []; Data.updated := false |}.

(** ** The [Plotter] base class (lines 35-46) *)

Module Plotter.
Record t (V : Type) : Type := { data : Data.t V }.
Arguments data {V}.

Definition __init__ {V : Type} (data : Data.t V) : t V := {| data := data |}.
End Plotter.

(** ** More of the example *)

(** The root [_set_callbacks] adds to the document. *)
Definition plots_grid (pl : list (list Figure)) : Grid :=
  {| children := pl; toolbar_location := "left"; grid_plot_width := 1000 |}.

(** Modelled from the spec: the spec leaves the checks of the rendering
    framework open; the examples run with these.  A colour is accepted when
    it is [white] or begins with [#]; a grid of figures is accepted by a
    document when no other document holds a root, the models of a source
    belonging to one document only, and a refused grid is left among the
    roots. *)
Definition example_color (c : string) : bool :=
  match c with
  | String "#" _ => true
  | _ => bool_decide (c = "white")
  end.

Definition example_root_free {V : Type} (ds : list (Document V)) (c : nat) : bool :=
  forallb (λ d, match roots d with [] => true | _ => false end) (delete c ds).

#[global] Instance example_bokeh : Bokeh Z := {|
  check_background c := if example_color c then None else Some ValueError;
  check_line _ l := if example_color (line_color l) then None else Some ValueError;
  check_root ds c g :=
    match children g with
    | [] => None
    | _ => if example_root_free ds c then None else Some (RuntimeError, true)
    end
|}.

(** The example object with its forwarder thread started, and then with a
    first viewer connected. *)
Definition example_running : Lines.t := (Lines.update_thread_start example_self).2.

Definition example_viewed : Lines.t := Lines.connect example_running.

(** ** Properties *)

Section Properties.
Context {V : Type} `{!Bokeh V}.
Implicit Types (self : @Lines.t V) (w vs : list V).
Implicit Types (data_dict src : gmap string (list V)).

Import ColumnDataSource Lines.

(** *** The window of a column *)

Lemma evict_drop (n : nat) w : evict n w = drop (length w - n) w.
Proof.
  induction w as [|x w IH]; [done|].
  cbn [evict]. case_decide as Hle.
  - replace (length (x :: w) - n) with 0 by lia. done.
  - rewrite IH. cbn [length] in *.
    replace (S (length w) - n) with (S (length w - n)) by lia. done.
Qed.

Lemma evict_length (n : nat) w : length (evict n w) = length w `min` n.
Proof. rewrite evict_drop, length_drop. lia. Qed.

Lemma stream_Ok data_dict (n : nat) src src' :
  stream data_dict n src = Ok src' →
  dom data_dict = dom src ∧
  src' = map_zip_with (λ w vs, evict n (w ++ vs)) src data_dict.
Proof. unfold stream. case_decide; naive_solver. Qed.

Lemma stream_dom data_dict (n : nat) src :
  dom data_dict = dom src →
  stream data_dict n src
  = Ok (map_zip_with (λ w vs, evict n (w ++ vs)) src data_dict).
Proof. intros Hd. unfold stream. by rewrite decide_True. Qed.

Lemma stream_lookup data_dict (n : nat) src src' (name : string) w' :
  stream data_dict n src = Ok src' →
  src' !! name = Some w' →
  ∃ w vs, src !! name = Some w ∧ data_dict !! name = Some vs
          ∧ w' = evict n (w ++ vs).
Proof.
  intros [_ ->]%stream_Ok Hl.
  apply map_lookup_zip_with_Some in Hl as (w & vs & -> & ? & ?). eauto.
Qed.

(** *** [_update] *)

Lemma update_eq data_dict self :
  _update data_dict self
  = match stream data_dict (_n_samples self) (_source self) with
    | Ok src => (Ok tt, set_source src self)
    | Raise e => (Raise e, self)
    end.
Proof.
  unfold _update, mbind, M_bind, bind, get, lift, modify.
  by destruct (stream _ _ _).
Qed.

Lemma update_Ok data_dict self self' :
  _update data_dict self = (Ok tt, self') →
  ∃ src, stream data_dict (_n_samples self) (_source self) = Ok src
         ∧ self' = set_source src self.
Proof.
  rewrite update_eq. destruct (stream _ _ _) as [src|e]; [|done].
  intros [= <-]. eauto.
Qed.

(** C1. For every accepted batch, after the update operation completes, each
    channel's display window is at most [_n_samples] long, the rollover
    limit handed to [stream]. *)
Theorem update_window_bounded data_dict self self' (name : string) w :
  _update data_dict self = (Ok tt, self') →
  _source self' !! name = Some w →
  length w ≤ _n_samples self'.
Proof.
  intros (src & Hs & ->)%update_Ok Hl. cbn in Hl |- *.
  destruct (stream_lookup _ _ _ _ _ _ Hs Hl) as (w0 & vs & _ & _ & ->).
  rewrite evict_length. lia.
Qed.

(** A batch of one value [vs] per column streams into windows that all hold
    [w] as it would into one. *)
Lemma stream_uniform (names : gset string) (n : nat) w vs :
  stream (gset_to_gmap vs names) n (gset_to_gmap w names)
  = Ok (gset_to_gmap (evict n (w ++ vs)) names).
Proof.
  rewrite stream_dom by (by rewrite !dom_gset_to_gmap).
  f_equal. apply map_eq. intros k.
  rewrite map_lookup_zip_with, !lookup_gset_to_gmap.
  destruct (guard (k ∈ names)); done.
Qed.

Lemma update_uniform (names : gset string) d sv th (n : nat) cs bg cd pl cl w vs :
  _update (gset_to_gmap vs names)
          (Lines.mk d (gset_to_gmap w names) sv th n cs bg cd pl cl)
  = (Ok tt, Lines.mk d (gset_to_gmap (evict n (w ++ vs)) names)
                     sv th n cs bg cd pl cl).
Proof. rewrite update_eq. cbn. by rewrite stream_uniform. Qed.

(** C5. After an update all channels of the display window hold sequences of
    one length, when they did before and the columns of the batch have one
    length: the common length grows by that of the batch, up to
    [_n_samples]. *)
Theorem update_windows_equal_length data_dict self self' (n m : nat) :
  (∀ (name : string) w, _source self !! name = Some w → length w = n) →
  (∀ (name : string) vs, data_dict !! name = Some vs → length vs = m) →
  _update data_dict self = (Ok tt, self') →
  ∀ (name : string) w, _source self' !! name = Some w →
    length w = (n + m) `min` _n_samples self.
Proof.
  intros Hsrc Hbatch (src & Hs & ->)%update_Ok name w Hl. cbn in Hl.
  destruct (stream_lookup _ _ _ _ _ _ Hs Hl) as (w0 & vs & Hw0 & Hvs & ->).
  rewrite evict_length, length_app.
  by rewrite (Hsrc _ _ Hw0), (Hbatch _ _ Hvs).
Qed.

(** *** [_get_new_samples] *)

Lemma dict_comp_spec (f : string → result (list V)) (g : string → list V)
    (names : list string) (acc : gmap string (list V)) :
  (∀ name, name ∈ names → f name = Ok (g name)) →
  ∃ d, dict_comp f names acc = Ok d
       ∧ ∀ k, d !! k = if decide (k ∈ names) then Some (g k) else acc !! k.
Proof.
  revert acc. induction names as [|name names IH]; intros acc Hf.
  - exists acc. split; [done|]. intros k. rewrite decide_False; [done|].
    apply not_elem_of_nil.
  - cbn [dict_comp]. rewrite (Hf name) by (apply elem_of_cons; by left).
    destruct (IH (<[name := g name]> acc)) as (d & -> & Hd).
    { intros name' Hin. apply Hf. apply elem_of_cons. by right. }
    exists d. split; [done|]. intros k. rewrite Hd.
    destruct (decide (k ∈ names)) as [Hk|Hk].
    + rewrite decide_True; [done|]. apply elem_of_cons. by right.
    + destruct (decide (k = name)) as [->|Hne].
      * rewrite decide_True by (apply elem_of_cons; by left).
        by rewrite lookup_insert_eq.
      * rewrite decide_False by (by intros [?|?]%elem_of_cons).
        by rewrite lookup_insert_ne.
Qed.

Lemma new_samples_spec (d : Data.t V) :
  ∃ batch, new_samples d = Ok batch
    ∧ ∀ k, batch !! k
           = if decide (k ∈ Data.dtype_names d)
             then Some ((λ r, r k) <$> Data.last_samples d) else None.
Proof.
  destruct (dict_comp_spec
              (Data.getitem (Data.dtype_names d) (Data.last_samples d))
              (λ name, (λ r : string → V, r name) <$> Data.last_samples d)
              (Data.dtype_names d) ∅) as (batch & Hb & Hl).
  { intros name Hin. unfold Data.getitem. by rewrite decide_True. }
  exists batch. split; [done|]. intros k. rewrite Hl.
  case_decide; [done|]. apply lookup_empty.
Qed.

(** What a turn of the forwarder does: the batch goes to the document, if
    there is one, and the readiness signal is cleared. *)
Lemma get_new_samples_eq self batch :
  new_samples (data self) = Ok batch →
  _get_new_samples self
  = (Ok tt,
     set_data Data.clear
       match _curdoc self with
       | Some curdoc =>
           set_server (on_sessions (alter (add_next_tick_callback batch) curdoc)) self
       | None => self
       end).
Proof.
  intros Hb.
  unfold _get_new_samples, mbind, M_bind, bind, get, lift, modify, try_except,
    get_curdoc, doc_call, mret, M_ret, ret.
  rewrite Hb. cbn. by destruct (_curdoc self).
Qed.

(** C3. When the render context does not exist yet, a batch submitted by the
    forwarder raises nothing and is dropped: the turn leaves the object as
    it was but for the cleared signal, so whatever reaches the loop later
    (a viewer connecting, ticks) finds no trace of the batch. *)
Theorem forward_without_context_dropped self :
  _curdoc self = None →
  _get_new_samples self = (Ok tt, set_data Data.clear self)
  ∧ ∀ ext, io_loop_run ext (_get_new_samples self).2
           = io_loop_run ext (set_data Data.clear self).
Proof.
  intros Hc. destruct (new_samples_spec (data self)) as (batch & Hb & _).
  rewrite (get_new_samples_eq _ _ Hb), Hc. done.
Qed.

(** C4. Every turn of the forwarder ends with the readiness signal cleared,
    whether the batch was handed to a document or the handoff failed. *)
Theorem readiness_cleared_after_cycle self :
  ∃ self', _get_new_samples self = (Ok tt, self')
           ∧ Data.updated (data self') = false.
Proof.
  destruct (new_samples_spec (data self)) as (batch & Hb & _).
  rewrite (get_new_samples_eq _ _ Hb). eexists. split; [done|].
  by destruct (_curdoc self).
Qed.

(** C10. The batch of a turn has one entry per field name of the dtype
    ("time" as any other), the column of that field in [last_samples], and
    no other key; it is this batch that is scheduled on the document. *)
Theorem forwarded_batch_fields self :
  ∃ batch,
    new_samples (data self) = Ok batch
    ∧ dom batch = list_to_set (Data.dtype_names (data self))
    ∧ (∀ name, name ∈ Data.dtype_names (data self) →
         batch !! name = Some ((λ r, r name) <$> Data.last_samples (data self)))
    ∧ (∀ curdoc, _curdoc self = Some curdoc →
         _get_new_samples self
         = (Ok tt, set_data Data.clear
                     (set_server (on_sessions
                        (alter (add_next_tick_callback batch) curdoc)) self))).
Proof.
  destruct (new_samples_spec (data self)) as (batch & Hb & Hl).
  exists batch. split_and!; [done|..].
  - apply set_eq. intros k. rewrite elem_of_dom, elem_of_list_to_set, Hl.
    case_decide; [naive_solver|]. split; [by intros [? ?]|done].
  - intros name Hin. by rewrite Hl, decide_True.
  - intros curdoc Hc. by rewrite (get_new_samples_eq _ _ Hb), Hc.
Qed.

(** *** Keeping an invariant through the monad *)

Section Preserves.
Variable P : @Lines.t V → Prop.

Lemma preserves_ret {A : Type} (a : A) : preserves P (mret a).
Proof. by intros s. Qed.

Lemma preserves_raise {A : Type} (e : exn) : preserves P (raise (A:=A) e).
Proof. by intros s. Qed.

Lemma preserves_get : preserves P get.
Proof. by intros s. Qed.

Lemma preserves_lift {A : Type} (r : result A) : preserves P (lift r).
Proof. by intros s. Qed.

Lemma preserves_get_curdoc : preserves P get_curdoc.
Proof. intros s Hs. unfold get_curdoc. by destruct (_curdoc s). Qed.

Lemma preserves_get_plots : preserves P get_plots.
Proof. intros s Hs. unfold get_plots. by destruct (plots s). Qed.

Lemma preserves_modify (f : Lines.t → Lines.t) :
  (∀ s, P s → P (f s)) → preserves P (modify f).
Proof. intros Hf s Hs. by apply Hf. Qed.

Lemma preserves_bind {A B : Type} (m : M A) (k : A → M B) :
  preserves P m → (∀ a, preserves P (k a)) → preserves P (m ≫= k).
Proof.
  intros Hm Hk s Hs. specialize (Hm s Hs).
  unfold mbind, M_bind, bind. destruct (m s) as [[a|e] s']; [|done].
  by apply Hk.
Qed.

Lemma preserves_try_except (m h : M unit) (e : exn) :
  preserves P m → preserves P h → preserves P (try_except m e h).
Proof.
  intros Hm Hh s Hs. specialize (Hm s Hs).
  unfold try_except. destruct (m s) as [[a|e'] s']; [done|].
  case_decide; [by apply Hh|done].
Qed.

Lemma preserves_for_each {A : Type} (f : A → M unit) (l : list A) :
  (∀ x, preserves P (f x)) → preserves P (for_each f l).
Proof.
  intros Hf. induction l as [|x l IH]; [by intros s|].
  cbn [for_each]. apply preserves_bind; [apply Hf|by intros _].
Qed.

Lemma preserves_foldl {A : Type} (f : A → M unit) (l : list A) self :
  (∀ x, preserves P (f x)) → P self → P (foldl (λ s x, (f x s).2) self l).
Proof.
  intros Hf. revert self. induction l as [|x l IH]; intros s Hs; [done|].
  cbn [foldl]. apply IH. by apply Hf.
Qed.
End Preserves.

(** [_update] keeps what no assignment to [_source] breaks. *)
Lemma preserves_update (P : @Lines.t V → Prop) data_dict :
  (∀ src s, P s → P (set_source src s)) → preserves P (_update data_dict).
Proof.
  intros P_source. unfold _update.
  apply preserves_bind; [apply preserves_get|]. intros s.
  apply preserves_bind; [apply preserves_lift|]. intros src.
  apply preserves_modify, P_source.
Qed.

(** [_set_layout] keeps what no assignment to [plots] breaks. *)
Lemma preserves_set_layout (P : @Lines.t V → Prop) :
  (∀ p s, P s → P (set_plots p s)) → preserves P _set_layout.
Proof.
  intros P_plots. unfold _set_layout.
  apply preserves_bind; [apply preserves_modify, P_plots|]. intros _.
  apply preserves_bind; [apply preserves_get|]. intros s.
  apply preserves_for_each. intros [i ch]. cbn [uncurry].
  unfold add_channel_plot.
  apply preserves_bind; [apply preserves_get|]. intros s'.
  apply preserves_bind; [apply preserves_lift|]. intros _.
  apply preserves_bind; [apply preserves_lift|]. intros c.
  apply preserves_bind; [apply preserves_lift|]. intros _.
  apply preserves_bind; [apply preserves_get_plots|]. intros pl.
  apply preserves_modify, P_plots.
Qed.

(** An invariant kept by each thing the methods and the loop do to the
    object is kept by whatever reaches the loop. *)
Section Loop.
Variable P : @Lines.t V → Prop.
Hypothesis P_clear : ∀ s, P s → P (set_data Data.clear s).
Hypothesis P_produce : ∀ smp s, P s → P (set_data (Data.produce smp) s).
Hypothesis P_thread :
  ∀ s, P s →
    P (set_update_thread (λ th, {| target := target th;
                                   thread_started := thread_started th;
                                   thread_finished := true |}) s).
Hypothesis P_curdoc : ∀ c s, P s → P (set_curdoc c s).
Hypothesis P_layout : preserves P _set_layout.
Hypothesis P_session :
  ∀ s, P s → P (set_server (on_sessions (λ ds, ds ++ [new_document])) s).
Hypothesis P_doc :
  ∀ (f : Document V → Document V) (c : nat),
    (∀ d, next_tick_callbacks (f d) = next_tick_callbacks d) →
    ∀ s, P s → P (set_server (on_sessions (alter f c)) s).
Hypothesis P_forwarded :
  ∀ batch (c : nat) s,
    new_samples (data s) = Ok batch →
    P s → P (set_server (on_sessions (alter (add_next_tick_callback batch) c)) s).
Hypothesis P_tick : ∀ s, P s → P (tick s).
Hypothesis P_running : ∀ b s, P s → P (set_server (set_running b) s).

Lemma loop_set_callbacks : preserves P _set_callbacks.
Proof using P_doc.
  unfold _set_callbacks.
  apply preserves_bind; [apply preserves_get_curdoc|]. intros c.
  apply preserves_bind; [apply preserves_get_plots|]. intros pl.
  apply preserves_bind; [apply preserves_get|]. intros s.
  apply preserves_bind.
  { destruct (check_root _ _ _) as [[e []]|].
    - apply preserves_bind; [|intros _; apply preserves_raise].
      by apply preserves_modify, P_doc.
    - apply preserves_bind; [apply preserves_ret|].
      intros _. apply preserves_raise.
    - by apply preserves_modify, P_doc. }
  intros _.
  apply preserves_bind; [apply preserves_get_curdoc|]. intros c'.
  by apply preserves_modify, P_doc.
Qed.

Lemma loop_app_manager (curdoc : nat) : preserves P (_app_manager curdoc).
Proof using P_doc P_curdoc P_layout.
  unfold _app_manager.
  apply preserves_bind; [apply preserves_modify, P_curdoc|]. intros _.
  apply preserves_bind; [apply P_layout|]. intros _.
  apply loop_set_callbacks.
Qed.

Lemma loop_get_new_samples : preserves P _get_new_samples.
Proof using P_clear P_forwarded.
  intros s Hs. destruct (new_samples_spec (data s)) as (batch & Hb & _).
  rewrite (get_new_samples_eq _ _ Hb). cbn. apply P_clear.
  destruct (_curdoc s); [by apply P_forwarded|done].
Qed.

Lemma loop_react (i : input) self : P self → P (react i self).
Proof using P_clear P_produce P_thread P_curdoc P_layout P_session P_doc
  P_forwarded P_tick.
  intros Hs. destruct i as [smp| | | |]; cbn [react].
  - by apply P_produce.
  - unfold connect. by apply loop_app_manager, P_session.
  - unfold forward. destruct (_ && _); [|done].
    pose proof (loop_get_new_samples self Hs) as Hf.
    destruct (_get_new_samples self) as [[u|e] s']; [done|].
    by apply P_thread.
  - by apply P_tick.
  - done.
Qed.

Lemma loop_serving (ext : list input) self self' :
  io_loop_run ext self = Serving self' → P self → P self'.
Proof using P_clear P_produce P_thread P_curdoc P_layout P_session P_doc
  P_forwarded P_tick.
  revert self. induction ext as [|i ext IH]; intros s Ho Hs.
  - cbn in Ho. by injection Ho as <-.
  - destruct i; cbn [io_loop_run] in Ho;
      try (by eapply IH; [exact Ho|apply loop_react]).
    done.
Qed.

Lemma loop_io_loop_run (ext : list input) self self' :
  object (io_loop_run ext self) = Some self' → P self → P self'.
Proof using All.
  revert self. induction ext as [|i ext IH]; intros s Ho Hs.
  - cbn in Ho. by injection Ho as <-.
  - destruct i; cbn [io_loop_run] in Ho;
      try (by eapply IH; [exact Ho|apply loop_react]).
    cbn in Ho. injection Ho as <-. by apply P_running.
Qed.
End Loop.

(** So is an invariant that no assignment to [data], [server],
    [_update_thread] or [_curdoc] breaks and that [_update] and
    [_set_layout] keep. *)
Section Stable.
Variable P : @Lines.t V → Prop.
Hypothesis P_clear : ∀ s, P s → P (set_data Data.clear s).
Hypothesis P_produce : ∀ smp s, P s → P (set_data (Data.produce smp) s).
Hypothesis P_update : ∀ data_dict, preserves P (_update data_dict).
Hypothesis P_server : ∀ f s, P s → P (set_server f s).
Hypothesis P_thread : ∀ f s, P s → P (set_update_thread f s).
Hypothesis P_curdoc : ∀ c s, P s → P (set_curdoc c s).
Hypothesis P_layout : preserves P _set_layout.

Lemma io_loop_run_inv (ext : list input) self self' :
  object (io_loop_run ext self) = Some self' → P self → P self'.
Proof using All.
  apply (loop_io_loop_run P); try done; try (intros; by apply P_server);
    try (intros; by apply P_thread).
  intros s Hs. unfold tick.
  apply (preserves_foldl P (λ cb, _update cb)); [apply P_update|].
  by apply P_server.
Qed.
End Stable.

(** *** [_set_layout] and the colours *)

Lemma add_channel_plot_eq (i : nat) (ch : string) self :
  add_channel_plot i ch self
  = match check_background (_bgcolor self) with
    | Some e => (Raise e, self)
    | None =>
        match _colors self !! i with
        | None => (Raise IndexError, self)
        | Some c =>
            match check_line (_source self) (channel_line ch c) with
            | Some e => (Raise e, self)
            | None =>
                match plots self with
                | None => (Raise AttributeError, self)
                | Some pl =>
                    (Ok tt,
                     set_plots
                       (Some (pl ++ [[channel_figure (_bgcolor self) ch c]]))
                       self)
                end
            end
        end
    end.
Proof.
  unfold add_channel_plot, mbind, M_bind, bind, get, lift, getindex,
    get_plots, modify, checked.
  destruct (check_background _); [done|].
  destruct (_colors self !! i); [|done].
  destruct (check_line _ _); [done|]. by destruct (plots self).
Qed.

Lemma set_plots_id self (pl : list (list Figure)) :
  plots self = Some pl → set_plots (Some pl) self = self.
Proof. destruct self. cbn. by intros ->. Qed.

(** The loop of [_set_layout] is [layout_rows] on the attributes. *)
Lemma set_layout_loop_rows (chs : list string) (k : nat) self
    (pl0 : list (list Figure)) :
  plots self = Some pl0 →
  for_each (uncurry add_channel_plot) (imap (λ j ch, (k + j, ch)) chs) self
  = ((layout_rows (_bgcolor self) (_colors self) (_source self) k chs pl0).1,
     set_plots
       (Some (layout_rows (_bgcolor self) (_colors self) (_source self)
                k chs pl0).2) self).
Proof.
  revert k self pl0. induction chs as [|ch chs IH]; intros k self pl0 Hpl.
  { cbn. by rewrite set_plots_id. }
  cbn [imap for_each layout_rows]. unfold mbind at 1, M_bind, bind.
  cbn [uncurry]. rewrite add_channel_plot_eq, Hpl, Nat.add_0_r.
  destruct (check_background _); [by rewrite set_plots_id|].
  destruct (_colors self !! k) as [c|]; [|by rewrite set_plots_id].
  destruct (check_line _ _); [by rewrite set_plots_id|].
  rewrite (imap_ext _ (λ j ch', (S k + j, ch')))
    by (intros j ? _; cbn; f_equal; lia).
  by rewrite (IH (S k) _ (pl0 ++ [[channel_figure (_bgcolor self) ch c]])).
Qed.

Lemma set_layout_rows self :
  _set_layout self
  = ((layout_rows (_bgcolor self) (_colors self) (_source self) 0
        (Data.ch_names (data self)) []).1,
     set_plots
       (Some (layout_rows (_bgcolor self) (_colors self) (_source self) 0
                (Data.ch_names (data self)) []).2) self).
Proof.
  unfold _set_layout, mbind, M_bind, bind, modify, get. cbn.
  exact (set_layout_loop_rows (Data.ch_names (data self)) 0
           (set_plots (Some []) self) [] eq_refl).
Qed.

(** The rows the loop appends are the figures of the channels it got to,
    in their order, each with the one line of its channel in the colour of
    its index; when the loop ends without raising it got to all of them. *)
Lemma layout_rows_spec (bg : string) (colors : list string)
    (src : gmap string (list V)) (chs : list string) (k : nat)
    (acc : list (list Figure)) :
  ∃ rows,
    (layout_rows bg colors src k chs acc).2 = acc ++ rows
    ∧ ((layout_rows bg colors src k chs acc).1 = Ok tt →
       length rows = length chs)
    ∧ ∀ j row, rows !! j = Some row →
        ∃ ch c, chs !! j = Some ch ∧ colors !! (k + j) = Some c
                ∧ row = [channel_figure bg ch c].
Proof.
  revert k acc. induction chs as [|ch chs IH]; intros k acc.
  { exists []. cbn. by rewrite app_nil_r. }
  cbn [layout_rows].
  destruct (check_background bg);
    [exists []; cbn; by rewrite app_nil_r|].
  destruct (colors !! k) as [c|] eqn:Hc;
    [|exists []; cbn; by rewrite app_nil_r].
  destruct (check_line src _);
    [exists []; cbn; by rewrite app_nil_r|].
  destruct (IH (S k) (acc ++ [[channel_figure bg ch c]]))
    as (rows & Hrows & Hlen & Hspec).
  exists ([channel_figure bg ch c] :: rows). split_and!.
  - rewrite Hrows, <- app_assoc. done.
  - intros Hok. cbn. by rewrite Hlen.
  - intros [|j] row Hj.
    + injection Hj as <-. exists ch, c. by rewrite Nat.add_0_r.
    + destruct (Hspec j row Hj) as (ch' & c' & ? & Hc' & ?).
      exists ch', c'. split_and!; [done| |done].
      by replace (k + S j) with (S k + j) by lia.
Qed.

(** *** The windows stay bounded *)

Lemma bounded_update data_dict : preserves (bounded (V:=V)) (_update data_dict).
Proof.
  intros self Hb. rewrite update_eq.
  destruct (stream _ _ _) as [src|e] eqn:Hs; [|done].
  intros name w Hl. cbn in Hl |- *.
  destruct (stream_lookup _ _ _ _ _ _ Hs Hl) as (w0 & vs & _ & _ & ->).
  rewrite evict_length. lia.
Qed.

Lemma bounded_set_layout : preserves (bounded (V:=V)) _set_layout.
Proof. by apply preserves_set_layout. Qed.

(** From an object whose windows are bounded, whatever reaches the loop
    leaves them bounded. *)
Lemma bounded_io_loop_run (ext : list input) self self' :
  object (io_loop_run ext self) = Some self' → bounded self → bounded self'.
Proof.
  apply (io_loop_run_inv bounded); try done.
  - apply bounded_update.
  - apply bounded_set_layout.
Qed.

(** *** The windows keep one length *)

Lemma stream_equal_length data_dict (n : nat) src src' :
  equal_length src → equal_length data_dict →
  stream data_dict n src = Ok src' → equal_length src'.
Proof.
  intros [a Ha] [b Hb] Hs. exists ((a + b) `min` n). intros name w Hl.
  destruct (stream_lookup _ _ _ _ _ _ Hs Hl) as (w0 & vs & Hw0 & Hvs & ->).
  by rewrite evict_length, length_app, (Ha _ _ Hw0), (Hb _ _ Hvs).
Qed.

Lemma update_equal_length data_dict self :
  equal_length (_source self) → equal_length data_dict →
  equal_length (_source (_update data_dict self).2)
  ∧ server (_update data_dict self).2 = server self.
Proof.
  intros Hsrc Hd. rewrite update_eq.
  destruct (stream _ _ _) as [src|e] eqn:Hs; [|by split].
  split; [|done]. exact (stream_equal_length _ _ _ _ Hsrc Hd Hs).
Qed.

(** The columns of a forwarded batch are those of one structured array. *)
Lemma new_samples_equal_length (d : Data.t V) batch :
  new_samples d = Ok batch → equal_length batch.
Proof.
  intros Hb. destruct (new_samples_spec d) as (batch' & Hb' & Hl).
  rewrite Hb in Hb'. injection Hb' as <-.
  exists (length (Data.last_samples d)). intros name w. rewrite Hl.
  case_decide; [|done]. intros [= <-]. apply length_fmap.
Qed.

Lemma Forall_concat_fmap {A B : Type} (Q : B → Prop) (f : A → list B)
    (l : list A) :
  Forall (λ x, Forall Q (f x)) l → Forall Q (concat (f <$> l)).
Proof.
  induction 1 as [|x l Hx _ IH]; [constructor|].
  cbn. apply Forall_app. by split.
Qed.

Lemma windows_inv_tick self : windows_inv self → windows_inv (tick self).
Proof.
  intros [Hsrc Hcbs]. unfold tick.
  assert (Forall equal_length
            (concat (next_tick_callbacks <$> sessions (server self)))) as Hall
    by by apply Forall_concat_fmap.
  assert (windows_inv
            (set_server (on_sessions (fmap clear_next_tick_callbacks)) self))
    as Hinv.
  { split; [done|]. cbn. apply Forall_fmap, Forall_true. intros doc. cbn.
    constructor. }
  revert Hall Hinv.
  generalize (set_server (on_sessions (fmap clear_next_tick_callbacks)) self).
  induction (concat _) as [|cb cbs IH]; intros s Hall [Hs Hd]; [done|].
  apply Forall_cons in Hall as [Hcb Hall]. cbn [foldl].
  destruct (update_equal_length cb s Hs Hcb) as [Hs' Hsv].
  apply IH; [done|]. split; [done|]. by rewrite Hsv.
Qed.

(** From an object whose windows have one length, whatever reaches the loop
    leaves them with one length: every batch the forwarder hands over has
    columns of one length. *)
Lemma windows_inv_io_loop_run (ext : list input) self self' :
  object (io_loop_run ext self) = Some self' →
  windows_inv self → windows_inv self'.
Proof.
  apply (loop_io_loop_run windows_inv); try done.
  - by apply preserves_set_layout.
  - intros s [Hs Hd]. split; [done|]. cbn.
    apply Forall_app. split; [done|]. repeat constructor.
  - intros f c Hf s [Hs Hd]. split; [done|]. cbn.
    apply Forall_alter; [done|]. intros doc _. by rewrite Hf.
  - intros batch c s Hb [Hs Hd]. split; [done|]. cbn.
    apply Forall_alter; [done|]. intros doc _ Hdoc. cbn.
    apply Forall_app. split; [done|]. constructor; [|done].
    by eapply new_samples_equal_length.
  - apply windows_inv_tick.
Qed.

(** *** [run_server] and the loop *)

Lemma io_loop_run_cases (ext : list input) self :
  ∃ self', (io_loop_run ext self = Returned self' ∧ Stop ∈ ext)
           ∨ (io_loop_run ext self = Serving self' ∧ Stop ∉ ext).
Proof.
  revert self. induction ext as [|i ext IH]; intros s.
  { exists s. right. split; [done|apply not_elem_of_nil]. }
  assert (i = Stop ∨ (i ≠ Stop
            ∧ io_loop_run (i :: ext) s = io_loop_run ext (react i s)))
    as [->|[Hi ->]] by (destruct i; auto).
  - eexists. left. split; [done|]. apply elem_of_cons. by left.
  - destruct (IH (react i s)) as (s' & [[Hr Hin]|[Hr Hin]]); exists s'.
    + left. split; [done|]. apply elem_of_cons. by right.
    + right. split; [done|]. by intros [?|?]%elem_of_cons.
Qed.

Lemma calls_set_layout (cl : list call) :
  preserves (λ s : Lines.t, calls s = cl) (_set_layout (V:=V)).
Proof. by apply preserves_set_layout. Qed.

(** Nothing that reaches the running loop makes a call into the server, the
    loop or the thread. *)
Lemma calls_io_loop_run (ext : list input) self self' :
  object (io_loop_run ext self) = Some self' → calls self' = calls self.
Proof.
  intros Ho.
  apply (io_loop_run_inv (λ s, calls s = calls self))
    with (ext := ext) (self := self); try done.
  - intros d. by apply preserves_update.
  - apply calls_set_layout.
Qed.

Lemma foldl_run_loop_callback (cbs : list loop_callback) self :
  foldl run_loop_callback self cbs
  = Lines.mk (data self) (_source self) (server self) (_update_thread self)
      (_n_samples self) (_colors self) (_bgcolor self) (_curdoc self)
      (plots self) (calls self ++ (shown <$> cbs)).
Proof.
  revert self. induction cbs as [|[route] cbs IH]; intros s.
  - cbn. rewrite app_nil_r. by destruct s.
  - cbn [foldl run_loop_callback]. rewrite IH. cbn.
    by rewrite <- app_assoc.
Qed.

(** [run_server] makes its four calls and is then in the loop, the server
    and the thread started and the view of the route opened; the other
    attributes are as they were. *)
Lemma run_server_eq self :
  ∃ self0,
    (∀ ext, run_server ext self = io_loop_run ext self0)
    ∧ calls self0
      = calls self
        ++ [call_server_start; call_io_loop_add_callback (server_show "/");
            call_thread_start; call_io_loop_start]
        ++ (shown <$> io_loop_callbacks (server self) ++ [server_show "/"])
    ∧ started self0
    ∧ io_loop_running (server self0) = true
    ∧ _source self0 = _source self
    ∧ _n_samples self0 = _n_samples self
    ∧ sessions (server self0) = sessions (server self)
    ∧ _curdoc self0 = _curdoc self
    ∧ data self0 = data self
    ∧ _colors self0 = _colors self
    ∧ _bgcolor self0 = _bgcolor self.
Proof.
  eexists. split.
  { intros ext.
    unfold run_server, io_loop_start, server_start, io_loop_add_callback,
      update_thread_start, mbind, M_bind, bind, modify.
    cbn -[foldl io_loop_run]. rewrite foldl_run_loop_callback.
    cbn -[io_loop_run]. reflexivity. }
  split_and!; [|done..].
  cbn. by rewrite <- !app_assoc.
Qed.

(** [run_server] never raises: it returns or is in the loop. *)
Lemma run_server_cases (ext : list input) self :
  ∃ self', (run_server ext self = Returned self' ∧ Stop ∈ ext)
           ∨ (run_server ext self = Serving self' ∧ Stop ∉ ext).
Proof.
  destruct (run_server_eq self) as (self0 & Hrun & _). rewrite Hrun.
  apply io_loop_run_cases.
Qed.


(** Once started, the server and the thread stay started whatever reaches
    the loop, and the loop runs until it is stopped. *)
Lemma tick_server self :
  server (tick self)
  = on_sessions (fmap clear_next_tick_callbacks) (server self)
  ∧ _update_thread (tick self) = _update_thread self.
Proof.
  unfold tick.
  apply (preserves_foldl
           (λ s, server s
                 = on_sessions (fmap clear_next_tick_callbacks) (server self)
                 ∧ _update_thread s = _update_thread self)
           (λ cb, _update cb)); [|done].
  intros cb. by apply preserves_update.
Qed.

Lemma react_server (P : Server V → Prop) (i : input) self :
  (∀ f sv, P sv → P (on_sessions f sv)) →
  P (server self) ∧ thread_started (_update_thread self) = true →
  P (server (react i self))
  ∧ thread_started (_update_thread (react i self)) = true.
Proof.
  intros HP.
  apply (loop_react
           (λ s, P (server s) ∧ thread_started (_update_thread s) = true));
    try (intros; destruct_and?; split; cbn; by try apply HP).
  - by apply preserves_set_layout.
  - intros s [? ?]. destruct (tick_server s) as [-> ->]. split; [|done].
    by apply HP.
Qed.

Lemma io_loop_run_started (ext : list input) self self' :
  object (io_loop_run ext self) = Some self' →
  started self → io_loop_running (server self) = true →
  started self'
  ∧ io_loop_running (server self')
    = match io_loop_run ext self with Returned _ => false | _ => true end.
Proof.
  revert self. induction ext as [|i ext IH]; intros s Ho Hs Hr.
  { cbn in Ho |- *. by injection Ho as <-. }
  assert (started (react i s) ∧ io_loop_running (server (react i s)) = true)
    as [Hs' Hr'].
  { destruct (react_server
                (λ sv, server_started sv = true ∧ io_loop_callbacks sv = []
                       ∧ io_loop_running sv = true) i s)
      as [(?&?&?) ?]; [by intros f sv|by destruct Hs as (?&?&?)|].
    by repeat split. }
  destruct i; cbn [io_loop_run] in Ho |- *; try by apply IH.
  cbn in Ho. injection Ho as <-. by destruct Hs as (?&?&?).
Qed.

(** *** The colours of the layout *)


(** Line 82 raises [KeyError] when the palette has no entry for the channel
    count. *)
Lemma palette_colors_size_missing
    (palettes : gmap string (gmap nat (list string))) (palette : string)
    (d : Data.t V) (sizes : gmap nat (list string)) :
  palettes !! palette = Some sizes →
  sizes !! length (Data.ch_names d) = None →
  palette_colors palettes palette d = Raise KeyError.
Proof. intros Hp Hs. unfold palette_colors, getitem. by rewrite Hp, Hs. Qed.

(** *** [run_server] *)

(** C8. [run_server] starts the server, schedules the opening of a view of
    the route on the loop, starts the forwarder thread and starts the loop,
    in this order, and then stays in the loop: it returns if and only if the
    loop is stopped from outside.  The server and the thread are started
    from then on, the view has been opened, and the loop is running for as
    long as the call has not returned. *)
Theorem run_server_order_and_blocking (ext : list input) self :
  ∃ self',
    ((run_server ext self = Returned self' ∧ (Stop ∈ ext)
      ∧ io_loop_running (server self') = false)
     ∨ (run_server ext self = Serving self' ∧ (Stop ∉ ext)
        ∧ io_loop_running (server self') = true))
    ∧ calls self'
      = calls self
        ++ [call_server_start; call_io_loop_add_callback (server_show "/");
            call_thread_start; call_io_loop_start]
        ++ (shown <$> io_loop_callbacks (server self) ++ [server_show "/"])
    ∧ server_started (server self') = true
    ∧ thread_started (_update_thread self') = true
    ∧ io_loop_callbacks (server self') = [].
Proof.
  destruct (run_server_eq self) as (self0 & Hrun & Hcalls & Hst & Hr & _).
  rewrite Hrun, <- Hcalls.
  destruct (io_loop_run_cases ext self0) as (self' & Hcase).
  assert (object (io_loop_run ext self0) = Some self') as Ho
    by by destruct Hcase as [[-> _]|[-> _]].
  destruct (io_loop_run_started ext self0 self' Ho Hst Hr) as [(?&?&?) Hrun'].
  exists self'. split_and!; try done.
  - destruct Hcase as [[He ?]|[He ?]]; rewrite He in Hrun' |- *; auto.
  - by apply (calls_io_loop_run ext).
Qed.


(** *** More on [_set_layout] and [_app_manager] *)

(** X3. [_set_layout] starts from an empty list: what [plots] held before,
    or that it was never assigned, makes no difference to what the call
    returns and leaves. *)
Theorem set_layout_discards_plots (p : option (list (list Figure))) self :
  _set_layout (set_plots p self) = _set_layout self.
Proof. by rewrite !set_layout_rows. Qed.

(** What [_app_manager] does in full. *)
Lemma app_manager_result (curdoc : nat) self :
  let lr := layout_rows (_bgcolor self) (_colors self) (_source self) 0
              (Data.ch_names (data self)) [] in
  let laid := set_plots (Some lr.2) (set_curdoc (Some curdoc) self) in
  let rooted :=
    set_server (on_sessions (alter (add_root (plots_grid lr.2)) curdoc)) laid in
  _app_manager curdoc self
  = match lr.1 with
    | Raise e => (Raise e, laid)
    | Ok _ =>
        match check_root (sessions (server self)) curdoc (plots_grid lr.2) with
        | Some (e, left_in) => (Raise e, if left_in then rooted else laid)
        | None =>
            (Ok tt,
             set_server (on_sessions (alter (set_title "Dummy EEG Stream") curdoc))
               rooted)
        end
    end.
Proof.
  cbn zeta. unfold _app_manager, mbind, M_bind, bind, modify.
  rewrite set_layout_rows. cbn.
  destruct (layout_rows _ _ _ _ _ _).1; [|done].
  unfold _set_callbacks, mbind, M_bind, bind, get_curdoc, get_plots, get,
    doc_call, modify, raise, mret, M_ret, ret, plots_grid. cbn.
  by destruct (check_root _ _ _) as [[e []]|].
Qed.

Lemma alter_lookup_insert {A : Type} (f : A → A) (l : list A) (i : nat) (x : A) :
  l !! i = Some x → alter f i l = <[i := f x]> l.
Proof.
  intros Hx. apply list_eq. intros j. destruct (decide (i = j)) as [<-|Hne].
  - rewrite list_lookup_alter_eq, Hx, list_lookup_insert_eq; [done|].
    by eapply lookup_lt_Some.
  - by rewrite list_lookup_alter_ne, list_lookup_insert_ne.
Qed.

(** X4. When [_app_manager] returns on the document of a session, it has
    made that document the current one, laid out one row per channel, added
    the grid of these rows as one more root of the document and titled it;
    the callbacks waiting on the document, the other documents and the
    windows are as they were. *)
Theorem app_manager_returns (curdoc : nat) self self' (doc : Document V) :
  _app_manager curdoc self = (Ok tt, self') →
  sessions (server self) !! curdoc = Some doc →
  ∃ pl,
    _curdoc self' = Some curdoc
    ∧ plots self' = Some pl
    ∧ length pl = length (Data.ch_names (data self))
    ∧ sessions (server self')
      = <[curdoc := {| roots := roots doc ++ [plots_grid pl];
                       title := "Dummy EEG Stream";
                       next_tick_callbacks := next_tick_callbacks doc |}]>
          (sessions (server self))
    ∧ _source self' = _source self.
Proof.
  rewrite app_manager_result. cbn zeta.
  destruct (layout_rows_spec (_bgcolor self) (_colors self) (_source self)
              (Data.ch_names (data self)) 0 []) as (rows & Hrows & Hlen & _).
  destruct (layout_rows _ _ _ _ _ _) as [[[]|e] pl] eqn:Hlr; [|done].
  cbn in *. destruct (check_root _ _ _) as [[e' []]|]; [done..|].
  intros [= <-] Hdoc. exists pl. split_and!; try done.
  - rewrite Hrows. by apply Hlen.
  - cbn. rewrite (alter_lookup_insert _ _ _ _ Hdoc).
    erewrite alter_lookup_insert
      by (apply list_lookup_insert_eq; by eapply lookup_lt_Some).
    by rewrite list_insert_insert_eq.
Qed.

(** X5. [_app_manager] assigns [_curdoc] before anything else (line 95):
    whatever the layout or the adding of the root raises, the document has
    become the current one although its title is not set; no document has
    another title or other callbacks waiting, the windows are as they were,
    and the next turn of the forwarder schedules its batch on this
    document. *)
Theorem app_manager_raises (curdoc : nat) self self' (e : exn) :
  _app_manager curdoc self = (Raise e, self') →
  _curdoc self' = Some curdoc
  ∧ title <$> sessions (server self') = title <$> sessions (server self)
  ∧ next_tick_callbacks <$> sessions (server self')
    = next_tick_callbacks <$> sessions (server self)
  ∧ _source self' = _source self
  ∧ ∃ batch,
      new_samples (data self) = Ok batch
      ∧ _get_new_samples self'
        = (Ok tt, set_data Data.clear
                    (set_server (on_sessions
                       (alter (add_next_tick_callback batch) curdoc)) self')).
Proof.
  rewrite app_manager_result. cbn zeta. intros Hr.
  assert (_curdoc self' = Some curdoc
          ∧ data self' = data self
          ∧ _source self' = _source self
          ∧ (sessions (server self') = sessions (server self)
             ∨ ∃ g, sessions (server self')
                    = alter (add_root g) curdoc (sessions (server self))))
    as (Hc & Hd & Hsrc & Hs).
  { destruct (layout_rows _ _ _ _ _ _).1;
      [destruct (check_root _ _ _) as [[e' []]|]|];
      try done; injection Hr as _ <-; split_and!; try done; eauto. }
  assert (∀ g (ds : list (Document V)),
            title <$> alter (add_root g) curdoc ds = title <$> ds
            ∧ next_tick_callbacks <$> alter (add_root g) curdoc ds
              = next_tick_callbacks <$> ds) as Halter.
  { intros g ds. split; apply list_eq; intros j; rewrite !list_lookup_fmap;
      (destruct (decide (curdoc = j)) as [<-|];
       [rewrite list_lookup_alter_eq; by destruct (ds !! curdoc)
       |by rewrite list_lookup_alter_ne]). }
  split_and!; [done| | |done|].
  - destruct Hs as [->|[g ->]]; [done|apply Halter].
  - destruct Hs as [->|[g ->]]; [done|apply Halter].
  - destruct (new_samples_spec (data self)) as (batch & Hb & _).
    exists batch. split; [done|].
    rewrite (get_new_samples_eq self' batch), Hc; [done|]. by rewrite Hd.
Qed.

(** *** Viewers and the forwarder *)

Lemma connect_facts self :
  _curdoc (connect self) = Some (length (sessions (server self)))
  ∧ _source (connect self) = _source self
  ∧ data (connect self) = data self
  ∧ _update_thread (connect self) = _update_thread self
  ∧ is_Some (sessions (server (connect self))
               !! length (sessions (server self)))
  ∧ ∀ j, j < length (sessions (server self)) →
      sessions (server (connect self)) !! j = sessions (server self) !! j.
Proof.
  unfold connect. rewrite app_manager_result. cbn zeta.
  assert (is_Some ((sessions (server self) ++ [new_document (V:=V)])
                     !! length (sessions (server self)))) as Hnew.
  { apply lookup_lt_is_Some. rewrite length_app. cbn. lia. }
  destruct (layout_rows _ _ _ _ _ _).1;
    [destruct (check_root _ _ _) as [[e []]|]|]; cbn;
    split_and!; try done;
    try (intros j Hj; rewrite ?list_lookup_alter_ne by lia;
         by apply lookup_app_l);
    rewrite ?list_lookup_alter_eq; destruct Hnew as [d ->]; by eexists.
Qed.

(** What a turn of the forwarder thread comes to. *)
Lemma forward_result self :
  ∃ batch,
    new_samples (data self) = Ok batch
    ∧ forward self
      = if thread_started (_update_thread self)
           && negb (thread_finished (_update_thread self))
           && Data.updated (data self)
        then set_data Data.clear
               match _curdoc self with
               | Some curdoc =>
                   set_server (on_sessions
                     (alter (add_next_tick_callback batch) curdoc)) self
               | None => self
               end
        else self.
Proof.
  destruct (new_samples_spec (data self)) as (batch & Hb & _).
  exists batch. split; [done|]. unfold forward.
  by rewrite (get_new_samples_eq _ _ Hb).
Qed.

(** X6. The forwarder hands over one batch per signal: [updated] is cleared
    at the end of a turn and [updated.wait()] then blocks, so a second turn
    with no new signal in between changes nothing. *)
Theorem forward_once_per_signal self :
  forward (forward self) = forward self.
Proof.
  destruct (forward_result self) as (batch & _ & Hf).
  destruct (thread_started (_update_thread self)
            && negb (thread_finished (_update_thread self))
            && Data.updated (data self)) eqn:Hg;
    rewrite Hf; [|unfold forward; by rewrite Hg].
  unfold forward at 1. cbn.
  by destruct (_curdoc self); cbn; rewrite andb_false_r.
Qed.

(** X7. Only the document of the viewer that connected last is handed
    batches: [_app_manager] overwrites [_curdoc] first of all, so after a
    further viewer has connected (whether or not its layout came about) a
    turn of the forwarder leaves the documents of all earlier viewers as
    they were, and the batch it hands over is the last in the queue of the
    new document. *)
Theorem forward_skips_earlier_documents self (j : nat) :
  j < length (sessions (server self)) →
  _curdoc (connect self) = Some (length (sessions (server self)))
  ∧ sessions (server (forward (connect self))) !! j
    = sessions (server self) !! j
  ∧ (thread_started (_update_thread self) = true →
     thread_finished (_update_thread self) = false →
     Data.updated (data self) = true →
     ∃ batch doc,
       new_samples (data self) = Ok batch
       ∧ sessions (server (forward (connect self)))
           !! length (sessions (server self)) = Some doc
       ∧ last (next_tick_callbacks doc) = Some batch).
Proof.
  intros Hj.
  destruct (connect_facts self) as (Hc & _ & Hd & Ht & [doc Hdoc] & Hs).
  destruct (forward_result (connect self)) as (batch & Hb & Hf).
  rewrite Hc, Hd, Ht in Hf. rewrite Hd in Hb. split_and!; [done| |].
  - rewrite <- (Hs j Hj), Hf. destruct (_ && _); [|done]. cbn.
    by rewrite list_lookup_alter_ne by lia.
  - intros H1 H2 H3. rewrite H1, H2, H3 in Hf. cbn in Hf.
    exists batch, (add_next_tick_callback batch doc). split_and!; [done| |].
    + rewrite Hf. cbn. by rewrite list_lookup_alter_eq, Hdoc.
    + cbn. apply last_snoc.
Qed.

(** *** What the loop keeps *)

(** Until a viewer connects, whatever reaches the loop leaves the windows
    alone and the object without a document. *)
Lemma io_loop_run_no_viewer (ext : list input) self self' :
  Connect ∉ ext →
  _curdoc self = None → sessions (server self) = [] →
  object (io_loop_run ext self) = Some self' →
  _source self' = _source self ∧ _curdoc self' = None.
Proof.
  revert self. induction ext as [|i ext IH]; intros s Hin Hc Hs Ho.
  { cbn in Ho. by injection Ho as <-. }
  assert (Connect ∉ ext) as Hin' by (intros ?; apply Hin, elem_of_cons; auto).
  destruct i as [smp| | | |]; cbn [io_loop_run react] in Ho.
  - by destruct (IH _ Hin' (Hc : _curdoc (set_data _ s) = None) Hs Ho).
  - exfalso. apply Hin, elem_of_cons. by left.
  - destruct (forward_result s) as (batch & _ & Hf). rewrite Hc in Hf.
    assert (_source (forward s) = _source s ∧ _curdoc (forward s) = None
            ∧ sessions (server (forward s)) = []) as (Hsrc & Hc' & Hs')
      by (rewrite Hf; by destruct (_ && _)).
    destruct (IH _ Hin' Hc' Hs' Ho) as [-> ->]. done.
  - assert (tick s = set_server (on_sessions (fmap clear_next_tick_callbacks)) s)
      as Ht by (unfold tick; by rewrite Hs).
    rewrite Ht in Ho.
    destruct (IH _ Hin' (Hc : _curdoc (set_server _ s) = None)
                (eq_ind_r (λ l, clear_next_tick_callbacks <$> l = []) eq_refl Hs)
                Ho) as [-> ->].
    done.
  - cbn in Ho. by injection Ho as <-.
Qed.

Lemma configuration_io_loop_run (ext : list input) self self' :
  object (io_loop_run ext self) = Some self' →
  _n_samples self' = _n_samples self
  ∧ _colors self' = _colors self
  ∧ _bgcolor self' = _bgcolor self
  ∧ Data.ch_names (data self') = Data.ch_names (data self)
  ∧ Data.dtype_names (data self') = Data.dtype_names (data self).
Proof.
  intros Ho.
  apply (io_loop_run_inv
           (λ s, _n_samples s = _n_samples self
                 ∧ _colors s = _colors self
                 ∧ _bgcolor s = _bgcolor self
                 ∧ Data.ch_names (data s) = Data.ch_names (data self)
                 ∧ Data.dtype_names (data s) = Data.dtype_names (data self)))
    with (ext := ext) (self := self); try done.
  - intros dd. by apply preserves_update.
  - by apply preserves_set_layout.
Qed.

(** X8. Nothing that happens in [run_server] reassigns what the object was
    configured with: the window size, the colours, the background colour
    and the channel and field names of the data object are, at any time of
    the serving, those of the object [run_server] was called on. *)
Theorem run_server_configuration_fixed (ext : list input) self self' :
  object (run_server ext self) = Some self' →
  _n_samples self' = _n_samples self
  ∧ _colors self' = _colors self
  ∧ _bgcolor self' = _bgcolor self
  ∧ Data.ch_names (data self') = Data.ch_names (data self)
  ∧ Data.dtype_names (data self') = Data.dtype_names (data self).
Proof.
  destruct (run_server_eq self)
    as (self0 & Hrun & _ & _ & _ & _ & Hn & _ & _ & Hd & Hc & Hb).
  rewrite Hrun. intros Ho.
  destruct (configuration_io_loop_run _ _ _ Ho) as (-> & -> & -> & -> & ->).
  by rewrite Hn, Hc, Hb, Hd.
Qed.

(** X11. As long as no viewer has connected nothing is streamed: every batch
    the forwarder submits while [run_server] serves is dropped, the windows
    are those the object had when [run_server] was called, and there is
    still no current document. *)
Theorem run_server_no_viewer_no_stream (ext : list input) self self' :
  Connect ∉ ext →
  _curdoc self = None → sessions (server self) = [] →
  object (run_server ext self) = Some self' →
  _source self' = _source self ∧ _curdoc self' = None.
Proof.
  destruct (run_server_eq self)
    as (self0 & Hrun & _ & _ & _ & Hsrc & _ & Hs & Hc & _).
  rewrite Hrun. intros Hin Hcur Hsess Ho. rewrite <- Hsrc.
  apply (io_loop_run_no_viewer ext self0); try done; congruence.
Qed.

(** X12. With [stream] appending to every window alike, as the
    specification has it: when [run_server] is called on an object whose
    windows have one length, and on whose documents no batch of uneven
    columns waits, the windows have one length at any time of the serving;
    every batch the forwarder builds has columns of one length, being the
    columns of one structured array. *)
Theorem run_server_windows_invariant (ext : list input) self self' :
  object (run_server ext self) = Some self' →
  windows_inv self →
  equal_length (_source self').
Proof.
  destruct (run_server_eq self)
    as (self0 & Hrun & _ & _ & _ & Hsrc & Hn & Hs & _).
  rewrite Hrun. intros Ho [Heq Hcbs].
  apply (windows_inv_io_loop_run _ _ _ Ho). split; by rewrite ?Hsrc, ?Hs.
Qed.

End Properties.

(** ** The claims on examples *)

Section Examples.
Import ColumnDataSource Lines SourceText.
Local Open Scope Z_scope.

Lemma update_window_bounded_witness :
  (length [22; 32] ≤ 2)%nat.
Proof.
  apply (update_window_bounded example_batch example_self
           (_update example_batch example_self).2 "c1" [22; 32]).
  - reflexivity.
  - vm_compute. reflexivity.
Defined.

(** C2. With a window of three samples, the single-sample batches [1], [2],
    [3], [4] applied in turn by [_update] to empty windows leave every
    window holding [2; 3; 4], in this order. *)
Theorem update_fifo_window3 (names : gset string) (d : Data.t Z)
    (sv : Server Z) (th : Thread) (cs : list string) (bg : string)
    (cd : option nat) (pl : option (list (list Figure))) (cl : list call) :
  (_update (gset_to_gmap [1] names) ;;
   _update (gset_to_gmap [2] names) ;;
   _update (gset_to_gmap [3] names) ;;
   _update (gset_to_gmap [4] names))
    (Lines.mk d (gset_to_gmap [] names) sv th 3 cs bg cd pl cl)
  = (Ok tt, Lines.mk d (gset_to_gmap [2; 3; 4] names) sv th 3 cs bg cd pl cl).
Proof.
  unfold mbind, M_bind, bind. by rewrite !update_uniform.
Qed.

Lemma forward_without_context_dropped_witness :
  _curdoc example_self = None
  ∧ _get_new_samples example_self = (Ok tt, set_data Data.clear example_self)
  ∧ ∀ ext, io_loop_run ext (_get_new_samples example_self).2
           = io_loop_run ext (set_data Data.clear example_self).
Proof.
  split; [reflexivity|].
  apply (forward_without_context_dropped example_self). reflexivity.
Defined.

Lemma update_windows_equal_length_witness :
  length [23; 33] = ((2 + 1) `min` 2)%nat.
Proof.
  apply (update_windows_equal_length example_batch example_self
           (_update example_batch example_self).2 2 1) with (name := "ch2").
  - intros name w.
    apply (map_Forall_lookup_1 (λ _ w, length w = 2%nat)
             (_source example_self) name w).
    apply (bool_decide_unpack _). vm_compute. reflexivity.
  - intros name vs.
    apply (map_Forall_lookup_1 (λ _ vs, length vs = 1%nat)
             example_batch name vs).
    apply (bool_decide_unpack _). vm_compute. reflexivity.
  - reflexivity.
  - vm_compute. reflexivity.
Defined.

(** C6. Lines 75-76 do not build the dictionary of the first [n_samples]
    values per dtype name: what line 76 holds is a comment, so as code the
    line is blank, line 75 has no [for] clause after its entry, and the
    brace it opens, which the text of the comment would close, is still open
    where line 77 begins. *)
Theorem init_comprehension_unclosed :
  open_brackets 0 (code line75) = 1%nat
  ∧ blank (code line76) = true
  ∧ open_brackets 1 (code line76) = 1%nat
  ∧ open_brackets 1 line76 = 0%nat.
Proof. vm_compute. done. Qed.


(** On the example every channel is laid out, and the line of the second
    is drawn in the second colour of the palette. *)
Example example_layout :
  (_set_layout example_self).1 = Ok tt
  ∧ (plots (_set_layout example_self).2 ≫= (λ pl, pl !! 1%nat))
    = Some [channel_figure "white" "ch2" "#ff7f0e"].
Proof. vm_compute. done. Qed.

(** The default palette has exactly the sizes 3 to 10. *)
Example Category10_sizes :
  dom (default ∅ (example_palettes !! "Category10"))
  = list_to_set (seq 3 8).
Proof. by apply (bool_decide_unpack _). Qed.

(** A batch forwarded before any viewer has connected is lost: the windows
    are those the object had after the viewer connects and the loop ticks.
    Forwarded after the connection, the same batch is streamed in and the
    oldest sample of every window is evicted. *)
Example dropped_before_connect :
  _source <$> object (run_server [Forward; Connect; Tick] example_self)
  = Some example_data_dict.
Proof. vm_compute. reflexivity. Qed.

Example streamed_after_connect :
  _source <$> object (run_server [Connect; Forward; Tick] example_self)
  = Some (list_to_map [("time", [24; 34]); ("c1", [22; 32]);
                       ("ch2", [23; 33]); ("chn3", [24; 34])]).
Proof. vm_compute. reflexivity. Qed.

(** *** The further properties *)

Lemma app_manager_returns_witness :
  ∃ pl,
    _curdoc example_viewed = Some 0%nat
    ∧ plots example_viewed = Some pl
    ∧ length pl = 3%nat
    ∧ sessions (server example_viewed)
      = [ {| roots := [plots_grid pl]; title := "Dummy EEG Stream";
             next_tick_callbacks := [] |} ]
    ∧ _source example_viewed = example_data_dict.
Proof.
  apply (app_manager_returns 0
           (set_server (on_sessions (λ ds, ds ++ [new_document])) example_running)
           example_viewed new_document).
  - vm_compute. reflexivity.
  - reflexivity.
Defined.

Lemma app_manager_raises_witness :
  _app_manager 1
    (set_server (on_sessions (λ ds, ds ++ [new_document])) example_viewed)
  = (Raise RuntimeError, connect example_viewed)
  ∧ _curdoc (connect example_viewed) = Some 1%nat
  ∧ title <$> sessions (server (connect example_viewed))
    = ["Dummy EEG Stream"; "Bokeh Application"]
  ∧ next_tick_callbacks <$> sessions (server (connect example_viewed))
    = [[]; []]
  ∧ _source (connect example_viewed) = example_data_dict
  ∧ ∃ batch,
      new_samples example_data = Ok batch
      ∧ _get_new_samples (connect example_viewed)
        = (Ok tt, set_data Data.clear
                    (set_server (on_sessions
                       (alter (add_next_tick_callback batch) 1%nat))
                       (connect example_viewed))).
Proof.
  assert (_app_manager 1
            (set_server (on_sessions (λ ds, ds ++ [new_document])) example_viewed)
          = (Raise RuntimeError, connect example_viewed)) as Hr
    by (vm_compute; reflexivity).
  split; [exact Hr|].
  exact (app_manager_raises 1 _ _ RuntimeError Hr).
Defined.

Lemma forward_skips_earlier_documents_witness :
  _curdoc (connect example_viewed) = Some 1%nat
  ∧ sessions (server (forward (connect example_viewed))) !! 0%nat
    = sessions (server example_viewed) !! 0%nat
  ∧ ∃ batch doc,
      new_samples (data example_viewed) = Ok batch
      ∧ sessions (server (forward (connect example_viewed))) !! 1%nat = Some doc
      ∧ last (next_tick_callbacks doc) = Some batch.
Proof.
  destruct (forward_skips_earlier_documents example_viewed 0) as (H1 & H2 & H3).
  { vm_compute. lia. }
  split_and!; [exact H1|exact H2|].
  apply H3; reflexivity.
Defined.

Lemma run_server_configuration_fixed_witness :
  ∃ self',
    object (run_server [Connect; Forward; Tick] example_self) = Some self'
    ∧ _n_samples self' = 2%nat
    ∧ _colors self' = take 3 Category10_10
    ∧ _bgcolor self' = "white"
    ∧ Data.ch_names (data self') = ["c1"; "ch2"; "chn3"]
    ∧ Data.dtype_names (data self') = ["time"; "c1"; "ch2"; "chn3"].
Proof.
  pose (o := object (run_server [Connect; Forward; Tick] example_self)).
  assert (o = Some (default example_self o)) as Ho
    by (vm_compute; reflexivity).
  exists (default example_self o). split; [exact Ho|].
  exact (run_server_configuration_fixed [Connect; Forward; Tick] example_self
           _ Ho).
Defined.

Lemma run_server_no_viewer_no_stream_witness :
  ∃ self',
    object (run_server [Forward; Tick; Produce [example_row 40]; Forward; Tick]
              example_self) = Some self'
    ∧ _source self' = example_data_dict ∧ _curdoc self' = None.
Proof.
  pose (ext := [Forward; Tick; Produce [example_row 40]; Forward; Tick]
               : list (@input Z)).
  pose (o := object (run_server ext example_self)).
  assert (o = Some (default example_self o)) as Ho
    by (vm_compute; reflexivity).
  exists (default example_self o). split; [exact Ho|].
  apply (run_server_no_viewer_no_stream ext example_self _);
    [|reflexivity|reflexivity|exact Ho].
  intros Hin. repeat (apply elem_of_cons in Hin as [Hin|Hin]; [discriminate|]).
  by apply elem_of_nil in Hin.
Defined.

Lemma run_server_windows_invariant_witness :
  ∃ self',
    object (run_server [Connect; Forward; Tick] example_self) = Some self'
    ∧ equal_length (_source self') ∧ _source self' !! "c1" = Some [22; 32].
Proof.
  pose (o := object (run_server [Connect; Forward; Tick] example_self)).
  assert (o = Some (default example_self o)) as Ho
    by (vm_compute; reflexivity).
  exists (default example_self o). split; [exact Ho|].
  split; [|vm_compute; reflexivity].
  apply (run_server_windows_invariant [Connect; Forward; Tick] example_self
           _ Ho).
  split; [|constructor]. exists 2%nat. intros name w.
  apply (map_Forall_lookup_1 (λ _ w, length w = 2%nat)
           example_data_dict name w).
  apply (bool_decide_unpack _). vm_compute. reflexivity.
Defined.

End Examples.
